(** * Cooking With Webpack: the example modules and the bundler configuration

  A shallow embedding of the JavaScript shown in the tutorial series:
  - the greeting module [hello.js] of part 1, and its ES2015 form of part 2;
  - the two revisions of [webpack.config.js] of part 2;
  - the entry script [2-using-loaders/src/index.js].

  JavaScript values are embedded as an inductive type, object literals as
  association lists in source order, the page as a list of elements indexed
  by position, and a thrown [TypeError] as [None]. *)

From Stdlib Require Import String Ascii ZArith List Lia.
From stdpp Require Import base option list strings.
Import ListNotations.

Local Open Scope string_scope.
Local Open Scope Z_scope.

(** ** JavaScript primitives used by the snippets *)

Module JS.

(** The values a caller of the tutorial's functions passes: the missing
    argument [undefined], [null], booleans and strings.  (The tutorial only
    ever passes nothing or a string; the other two primitives are kept so
    that the strictness of [===] is visible.) *)
Inductive value : Type :=
| VUndefined
| VNull
| VBool (b : bool)
| VString (s : string).

(** [v === undefined] *)
Definition is_undefined (v : value) : bool :=
  match v with
  | VUndefined => true
  | _ => false
  end.

(** The abstract operation ToString on these primitives. *)
Definition ToString (v : value) : string :=
  match v with
  | VUndefined => "undefined"
  | VNull => "null"
  | VBool true => "true"
  | VBool false => "false"
  | VString s => s
  end.

(** [s + v] with a string on the left: string concatenation of [s] with
    [ToString v]. *)
Definition plus (s : string) (v : value) : string :=
  (s ++ ToString v)%string.

End JS.

(** ** Part 1: [hello.js] *)

Module Hello.
Import JS.

(** [[
    module.exports = function(name) {
      if (name === undefined) {
        name = 'World';
      }
      return 'Hello, ' + name + '!';
    };
    ]] *)
Definition hello (name : value) : string :=
  let name := if is_undefined name then VString "World" else name in
  plus (plus "Hello, " name) (VString "!").

(** Part 2, after the move to ES2015:
    [[
    export default function(name = 'World') {
      return helloTpl({ name: name });
    };
    ]]
    A default parameter is used exactly when the argument is [undefined].
    [helloTpl] is the function the handlebars loader compiles from
    [hello.hbs]; it is a parameter here. *)
Definition hello_es2015 (helloTpl : value -> string) (name : value) : string :=
  let name := if is_undefined name then VString "World" else name in
  helloTpl name.

End Hello.

(** ** Node's [path.join] on POSIX paths

  The configuration file calls [path.join(__dirname, ...)].  The function
  belongs to Node, not to the tutorial; it is written out here after Node's
  [lib/path.js] ([posix.join], [posix.normalize], [normalizeString]) so that
  the configuration can be evaluated. *)

Module Path.

(** [s.split('/')] *)
Fixpoint split_slash (s : string) : list string :=
  match s with
  | EmptyString => [EmptyString]
  | String c rest =>
      if Ascii.eqb c "/" then EmptyString :: split_slash rest
      else match split_slash rest with
           | seg :: segs => String c seg :: segs
           | [] => [String c EmptyString]
           end
  end.

(** One segment of [normalizeString]; [rstk] holds the segments kept so
    far, last one first. *)
Definition push_segment (allowAboveRoot : bool) (rstk : list string)
    (seg : string) : list string :=
  if String.eqb seg "" || String.eqb seg "." then rstk
  else if String.eqb seg ".." then
    match rstk with
    | top :: below =>
        if String.eqb top ".."
        then (if allowAboveRoot then ".." :: rstk else rstk)
        else below
    | [] => if allowAboveRoot then [".."] else []
    end
  else seg :: rstk.

Definition normalize_segments (allowAboveRoot : bool) (path : string)
    : list string :=
  rev (fold_left (push_segment allowAboveRoot) (split_slash path) []).

Definition normalizeString (path : string) (allowAboveRoot : bool) : string :=
  String.concat "/" (normalize_segments allowAboveRoot path).

(** [path.charCodeAt(0) === 47] *)
Definition isAbsolute (path : string) : bool :=
  match path with
  | String c _ => Ascii.eqb c "/"
  | EmptyString => false
  end.

(** [path.charCodeAt(path.length - 1) === 47] *)
Fixpoint trailingSeparator (path : string) : bool :=
  match path with
  | EmptyString => false
  | String c EmptyString => Ascii.eqb c "/"
  | String _ rest => trailingSeparator rest
  end.

Definition normalize (path : string) : string :=
  if String.eqb path "" then "."
  else
    let p := normalizeString path (negb (isAbsolute path)) in
    if String.eqb p "" then
      if isAbsolute path then "/"
      else if trailingSeparator path then "./" else "."
    else
      let p := if trailingSeparator path then (p ++ "/")%string else p in
      if isAbsolute path then ("/" ++ p)%string else p.

(** [path.join(...args)]: the non-empty arguments joined by ['/'], then
    normalized. *)
Definition join (args : list string) : string :=
  match List.filter (fun a => negb (String.eqb a "")) args with
  | [] => "."
  | parts => normalize (String.concat "/" parts)
  end.

(** A segment that names a file or a directory: not empty, not [.] and not
    [..], the three that [normalizeString] treats specially. *)
Definition plain (seg : string) : bool :=
  negb (String.eqb seg "" || String.eqb seg "." || String.eqb seg "..").

End Path.

(** ** Part 2: the two revisions of [webpack.config.js] *)

Module Config.

(** The object literals of the configuration files: strings, regular
    expression literals (kept as their source text), arrays, and objects as
    their properties in source order. *)
#[local] Set Warnings "-register-all".
Inductive data : Type :=
| Str (s : string)
| RegExp (source : string)
| Arr (items : list data)
| Obj (props : list (string * data)).

(** [o.k] on a literal: the value of property [k], if [o] is an object that
    has it.  No literal of the configuration repeats a key. *)
Fixpoint assoc (k : string) (props : list (string * data)) : option data :=
  match props with
  | [] => None
  | (k', v) :: rest => if String.eqb k k' then Some v else assoc k rest
  end.

Definition prop (k : string) (o : data) : option data :=
  match o with
  | Obj props => assoc k props
  | _ => None
  end.

Definition keys (o : data) : list string :=
  match o with
  | Obj props => map fst props
  | _ => []
  end.

(** The revision written for webpack 2 ([module.rules], [use]):
    [[
    module.exports = {
      entry: path.join(__dirname, 'src/index.js'),
      output: {
        path: path.join(__dirname, 'dist'),
        filename: 'index.bundle.js'
      },
      module: {
        rules: [{
          test: /\.html$/,
          use: [{ loader: 'html-loader' }]
        }, {
          test: /\.hbs$/,
          use: [{ loader: 'handlebars-loader' }]
        }, {
          test: /\.css$/,
          use: [{ loader: 'style-loader' }, { loader: 'css-loader' }]
        }, {
          test: /\.js$/,
          exclude: /(node_modules)/,
          use: [{ loader: 'babel-loader', query: { presets: ['es2015'] } }]
        }]
      }
    };
    ]]
    [__dirname] is the directory of the configuration file. *)
Definition config_rules (__dirname : string) : data :=
  Obj [
    ("entry", Str (Path.join [__dirname; "src/index.js"]));
    ("output", Obj [
      ("path", Str (Path.join [__dirname; "dist"]));
      ("filename", Str "index.bundle.js")
    ]);
    ("module", Obj [
      ("rules", Arr [
        Obj [
          ("test", RegExp "\.html$");
          ("use", Arr [Obj [("loader", Str "html-loader")]])
        ];
        Obj [
          ("test", RegExp "\.hbs$");
          ("use", Arr [Obj [("loader", Str "handlebars-loader")]])
        ];
        Obj [
          ("test", RegExp "\.css$");
          ("use", Arr [Obj [("loader", Str "style-loader")];
                       Obj [("loader", Str "css-loader")]])
        ];
        Obj [
          ("test", RegExp "\.js$");
          ("exclude", RegExp "(node_modules)");
          ("use", Arr [Obj [
            ("loader", Str "babel-loader");
            ("query", Obj [("presets", Arr [Str "es2015"])])
          ]])
        ]
      ])
    ])
  ].

(** The revision written for webpack 1 ([module.loaders], [loader] or
    [loaders]):
    [[
    module.exports = {
      entry: path.join(__dirname, 'src/index.js'),
      output: {
        path: path.join(__dirname, 'dist'),
        filename: 'index.bundle.js'
      },
      module: {
        loaders: [
          { test: /\.html$/, loader: 'html' },
          { test: /\.hbs$/, loader: 'handlebars' },
          { test: /\.css$/, loaders: ['style', 'css'] },
          { test: /\.js$/, exclude: /(node_modules)/, loader: 'babel-loader',
            query: { presets: ['es2015'] } }
        ]
      }
    };
    ]] *)
Definition config_loaders (__dirname : string) : data :=
  Obj [
    ("entry", Str (Path.join [__dirname; "src/index.js"]));
    ("output", Obj [
      ("path", Str (Path.join [__dirname; "dist"]));
      ("filename", Str "index.bundle.js")
    ]);
    ("module", Obj [
      ("loaders", Arr [
        Obj [
          ("test", RegExp "\.html$");
          ("loader", Str "html")
        ];
        Obj [
          ("test", RegExp "\.hbs$");
          ("loader", Str "handlebars")
        ];
        Obj [
          ("test", RegExp "\.css$");
          ("loaders", Arr [Str "style"; Str "css"])
        ];
        Obj [
          ("test", RegExp "\.js$");
          ("exclude", RegExp "(node_modules)");
          ("loader", Str "babel-loader");
          ("query", Obj [("presets", Arr [Str "es2015"])])
        ]
      ])
    ])
  ].

(** *** What a configuration says, independent of the schema

    The content of a configuration: the entry, the output directory and file
    name, and for each rule in order its test pattern, its exclude pattern if
    any, and its chain of loaders, each with the presets passed to it. *)

Record rule_view : Type := RuleView {
  rv_test : string;
  rv_exclude : option string;
  rv_chain : list (string * option (list string))
}.

Record config_view : Type := ConfigView {
  cv_entry : string;
  cv_path : string;
  cv_filename : string;
  cv_rules : list rule_view
}.

Definition as_str (d : data) : option string :=
  match d with Str s => Some s | _ => None end.

Definition as_regexp (d : data) : option string :=
  match d with RegExp s => Some s | _ => None end.

Definition as_arr (d : data) : option (list data) :=
  match d with Arr l => Some l | _ => None end.

(** [f] on every item, failing if it fails on one. *)
Fixpoint traverse {A B} (f : A -> option B) (l : list A) : option (list B) :=
  match l with
  | [] => Some []
  | x :: rest =>
      match f x, traverse f rest with
      | Some y, Some ys => Some (y :: ys)
      | _, _ => None
      end
  end.

(** An optional property: absent is fine, present must have the right form. *)
Definition optional {A} (read : data -> option A) (o : option data)
    : option (option A) :=
  match o with
  | None => Some None
  | Some d => Some <$> read d
  end.

(** [{ presets: [...] }] *)
Definition read_query (q : data) : option (list string) :=
  presets ← prop "presets" q;
  items ← as_arr presets;
  traverse as_str items.

(** An entry of a [use] chain: [{ loader: name, query: {...} }]. *)
Definition read_use_entry (u : data) : option (string * option (list string)) :=
  loader ← prop "loader" u;
  name ← as_str loader;
  presets ← optional read_query (prop "query" u);
  Some (name, presets).

(** A record of [module.rules]. *)
Definition read_rule (r : data) : option rule_view :=
  test ← prop "test" r;
  test ← as_regexp test;
  exclude ← optional as_regexp (prop "exclude" r);
  use ← prop "use" r;
  use ← as_arr use;
  chain ← traverse read_use_entry use;
  Some (RuleView test exclude chain).

(** The chain of a record of [module.loaders]: one [loader] name, to which
    the record's [query] is passed, or a [loaders] chain of names. *)
Definition read_loader_chain (r : data)
    : option (list (string * option (list string))) :=
  match prop "loader" r, prop "loaders" r with
  | Some l, None =>
      name ← as_str l;
      presets ← optional read_query (prop "query" r);
      Some [(name, presets)]
  | None, Some ls =>
      ls ← as_arr ls;
      names ← traverse as_str ls;
      Some (map (fun n => (n, @None (list string))) names)
  | _, _ => None
  end.

(** A record of [module.loaders]. *)
Definition read_loader (r : data) : option rule_view :=
  test ← prop "test" r;
  test ← as_regexp test;
  exclude ← optional as_regexp (prop "exclude" r);
  chain ← read_loader_chain r;
  Some (RuleView test exclude chain).

Definition read_config (list_key : string) (read : data -> option rule_view)
    (c : data) : option config_view :=
  entry ← prop "entry" c;
  entry ← as_str entry;
  output ← prop "output" c;
  path ← prop "path" output;
  path ← as_str path;
  filename ← prop "filename" output;
  filename ← as_str filename;
  module ← prop "module" c;
  rules ← prop list_key module;
  rules ← as_arr rules;
  rules ← traverse read rules;
  Some (ConfigView entry path filename rules).

Definition view_rules : data -> option config_view :=
  read_config "rules" read_rule.

Definition view_loaders : data -> option config_view :=
  read_config "loaders" read_loader.

(** *** Loader names in webpack 1

    webpack 1 looks a loader name up through its [resolveLoader.moduleTemplates],
    [["*-webpack-loader", "*-web-loader", "*-loader", "*"]], and takes the
    first candidate that is an installed package; webpack 2 takes the name as
    written.  The installed packages are those of the tutorial's
    [npm install ... --save-dev] lines. *)

Definition moduleTemplates (name : string) : list string :=
  [(name ++ "-webpack-loader")%string; (name ++ "-web-loader")%string;
   (name ++ "-loader")%string; name].

Definition installed : list string :=
  ["webpack"; "html-loader"; "style-loader"; "css-loader"; "handlebars";
   "handlebars-loader"; "babel-loader"; "babel-core"; "babel-preset-es2015"].

Definition is_installed (pkg : string) : bool :=
  existsb (String.eqb pkg) installed.

Definition resolve_loader (name : string) : option string :=
  List.find is_installed (moduleTemplates name).

Definition resolve_rule (r : rule_view) : option rule_view :=
  chain ← traverse (fun '(name, presets) =>
                  pkg ← resolve_loader name; Some (pkg, presets)) (rv_chain r);
  Some (RuleView (rv_test r) (rv_exclude r) chain).

Definition resolve_view (v : config_view) : option config_view :=
  rules ← traverse resolve_rule (cv_rules v);
  Some (ConfigView (cv_entry v) (cv_path v) (cv_filename v) rules).

(** [c.module.rules] and [c.module.loaders] *)
Definition module_list (key : string) (c : data) : option data :=
  module ← prop "module" c;
  prop key module.

(** *** Well-formed rule records *)

(** The payload handed to babel: [{ presets: ['es2015'] }]. *)
Definition es2015_query : data :=
  Obj [("presets", Arr [Str "es2015"])].

Definition has_test (r : data) : Prop :=
  exists source, prop "test" r = Some (RegExp source).

(** [exclude], when present, is a pattern and sits on the JavaScript rule. *)
Definition exclude_only_on_js (r : data) : Prop :=
  forall x, prop "exclude" r = Some x ->
    (exists source, x = RegExp source) /\ prop "test" r = Some (RegExp "\.js$").

(** [query], when present, is the es2015 payload and sits next to
    [loader: 'babel-loader']. *)
Definition query_only_on_babel (o : data) : Prop :=
  forall q, prop "query" o = Some q ->
    q = es2015_query /\ prop "loader" o = Some (Str "babel-loader").

(** A record of [module.rules]: a [test] pattern and a [use] chain of
    [{ loader: name }] entries. *)
Definition well_formed_rule (r : data) : Prop :=
  has_test r /\
  (exists chain, prop "use" r = Some (Arr chain) /\ chain <> [] /\
     Forall (fun u => (exists name, prop "loader" u = Some (Str name)) /\
                      query_only_on_babel u) chain) /\
  exclude_only_on_js r.

(** A record of [module.loaders]: a [test] pattern and either a [loader]
    name or a [loaders] chain of names. *)
Definition well_formed_loader (r : data) : Prop :=
  has_test r /\
  ((exists name, prop "loader" r = Some (Str name)) \/
   (exists names, prop "loaders" r = Some (Arr names) /\ names <> [] /\
      Forall (fun n => exists name, n = Str name) names)) /\
  exclude_only_on_js r /\
  query_only_on_babel r.

(** The content both revisions are meant to have. *)
Definition expected_view (__dirname : string) : config_view :=
  {| cv_entry := Path.join [__dirname; "src/index.js"];
     cv_path := Path.join [__dirname; "dist"];
     cv_filename := "index.bundle.js";
     cv_rules := [
       RuleView "\.html$" None [("html-loader", None)];
       RuleView "\.hbs$" None [("handlebars-loader", None)];
       RuleView "\.css$" None [("style-loader", None); ("css-loader", None)];
       RuleView "\.js$" (Some "(node_modules)")
                [("babel-loader", Some ["es2015"])]
     ] |}.

End Config.

(** ** The page and its events *)

Module Dom.
Import JS.

(** The callbacks a script hands to [addEventListener], as closures: the code
    of the callback and the variables it captured.  The tutorial has one, the
    arrow function of [index.js], which captures [input] and [hellos]. *)
Inductive callback : Type :=
| KeyupCallback (input : nat) (hellos : option nat).

Record listener : Type := Listener {
  l_type : string;
  l_callback : callback
}.

(** An element: what the selectors look at ([id], classes), its [value]
    property ([undefined] on elements that have none), the HTML inserted into
    it, in order, and its event listeners, in order of registration. *)
Record element : Type := Element {
  el_tag : string;
  el_id : option string;
  el_classes : list string;
  el_value : value;
  el_content : list string;
  el_listeners : list listener
}.

(** The document: its elements in document order.  An element is referred
    to by its position. *)
Abbreviation document := (list element).

Inductive selector : Type :=
| ByClass (c : string)     (* ['.c'] *)
| ById (i : string).       (* ['#i'] *)

Definition matches (sel : selector) (el : element) : bool :=
  match sel with
  | ByClass c => existsb (String.eqb c) (el_classes el)
  | ById i =>
      match el_id el with
      | Some i' => String.eqb i i'
      | None => false
      end
  end.

(** [document.querySelector(sel)]: the first matching element in document
    order, or [null]. *)
Fixpoint querySelector_from (n : nat) (sel : selector) (doc : list element)
    : option nat :=
  match doc with
  | [] => None
  | el :: rest =>
      if matches sel el then Some n else querySelector_from (S n) sel rest
  end.

Definition querySelector (sel : selector) (doc : document) : option nat :=
  querySelector_from 0 sel doc.

(** [el.addEventListener(type, cb)] *)
Definition addEventListener (i : nat) (type : string) (cb : callback)
    (doc : document) : document :=
  alter (fun el =>
           Element (el_tag el) (el_id el) (el_classes el) (el_value el)
             (el_content el) (el_listeners el ++ [Listener type cb])) i doc.

(** [el.insertAdjacentHTML('beforeend', html)]: the parsed HTML becomes the
    last children of [el]. *)
Definition insertAdjacentHTML_beforeend (i : nat) (html : string)
    (doc : document) : document :=
  alter (fun el =>
           Element (el_tag el) (el_id el) (el_classes el) (el_value el)
             (el_content el ++ [html]) (el_listeners el)) i doc.

(** [el.value = v] *)
Definition set_value (i : nat) (v : value) (doc : document) : document :=
  alter (fun el =>
           Element (el_tag el) (el_id el) (el_classes el) v
             (el_content el) (el_listeners el)) i doc.

(** A keyboard or mouse event as the callback reads it: [e.type],
    [e.keyCode] and [e.target]. *)
Record event : Type := Event {
  ev_type : string;
  ev_keyCode : Z;
  ev_target : nat
}.

End Dom.

(** ** Part 2: the entry script [src/index.js] *)

Module Index.
Import JS Dom.

Section Script.

(** [import hello from './hello.js';] -- the greeting function of the
    module the script is bundled with. *)
Variable hello : value -> string.

(** The callback:
    [[
    e => {
      if (e.keyCode === 13) {
        hellos.insertAdjacentHTML('beforeend', hello(e.target.value));
        input.value = '';
      }
    }
    ]]
    [None] is the [TypeError] of calling a method on [null]; it is raised
    before anything has been changed. *)
Definition on_keyup (input : nat) (hellos : option nat) (e : event)
    (doc : document) : option document :=
  if Z.eqb (ev_keyCode e) 13 then
    match hellos, doc !! ev_target e with
    | Some h, Some target =>
        let doc := insertAdjacentHTML_beforeend h (hello (el_value target)) doc in
        let doc := set_value input (VString "") doc in
        Some doc
    | _, _ => None
    end
  else Some doc.

Definition call (cb : callback) (e : event) (doc : document) : option document :=
  match cb with
  | KeyupCallback input hellos => on_keyup input hellos e doc
  end.

(** The script:
    [[
    const input = document.querySelector('.js-add-hello');
    const hellos = document.querySelector('#hellos');
    input.addEventListener('keyup', e => { ... });
    ]]
    [None] is the [TypeError] raised when [input] is [null]. *)
Definition index_js (doc : document) : option document :=
  let input := querySelector (ByClass "js-add-hello") doc in
  let hellos := querySelector (ById "hellos") doc in
  match input with
  | Some i => Some (addEventListener i "keyup" (KeyupCallback i hellos) doc)
  | None => None
  end.

(** Native dispatch of [e] at its target: the listeners registered there for
    [e.type] are called in order of registration; a callback that throws
    leaves the document as it was and the next one is called. *)
Definition dispatch (e : event) (doc : document) : document :=
  match doc !! ev_target e with
  | Some target =>
      fold_left
        (fun doc l =>
           if String.eqb (l_type l) (ev_type e)
           then default doc (call (l_callback l) e doc)
           else doc)
        (el_listeners target) doc
  | None => doc
  end.

(** What happens to the page after the script has run: an event is
    dispatched, or the user edits the [value] of an element. *)
Inductive action : Type :=
| Fire (e : event)
| Edit (i : nat) (text : string).

Definition perform (doc : document) (a : action) : document :=
  match a with
  | Fire e => dispatch e doc
  | Edit i text => set_value i (VString text) doc
  end.

Definition run (doc : document) (trace : list action) : document :=
  fold_left perform trace doc.

End Script.

(** The two elements of part 2's [index.html] that the script looks up, as
    the tutorial gives their markup: a text [input] of classes [Input] and
    [js-add-hello], followed by an empty [div] of id [hellos]. *)
Definition page : document :=
  [ Element "input" None ["Input"; "js-add-hello"] (VString "") [] [];
    Element "div" (Some "hellos") [] VUndefined [] [] ].

(** Number of listeners registered in the whole document. *)
Definition listener_count (doc : document) : nat :=
  list_sum (map (fun el => length (el_listeners el)) doc).

End Index.

(** ** The patterns of the configuration as JavaScript regular expressions

  The [test] and [exclude] patterns are regular expression literals.  The
  ones the configuration uses are made of characters that stand for
  themselves, escaped syntax characters, groups, and a final [$]; this is the
  fragment given a meaning here.  A literal outside of it is not given one. *)

Module Regex.

(** A pattern of the fragment says: this text occurs, and, when [at_end] is
    set, it occurs at the end of the input. *)
Record pattern : Type := Pattern {
  literal : string;
  at_end : bool
}.

(** SyntaxCharacter of the grammar, and [/], which a literal must escape. *)
Definition syntax_char (c : ascii) : bool :=
  existsb (Ascii.eqb c) (list_ascii_of_string "^$\.*+?()[]{}|/").

Definition prepend (c : ascii) (p : option pattern) : option pattern :=
  match p with
  | Some (Pattern text e) => Some (Pattern (String c text) e)
  | None => None
  end.

(** Reads the source of a literal; [depth] counts the groups that are open.
    An escaped syntax character and any other character stand for
    themselves, a group for what it encloses, and [$] is read in last
    position only. *)
Fixpoint parse_from (depth : nat) (source : string) : option pattern :=
  match source with
  | EmptyString =>
      match depth with
      | O => Some (Pattern "" false)
      | S _ => None
      end
  | String c rest =>
      if Ascii.eqb c "\" then
        match rest with
        | String e rest' =>
            if syntax_char e then prepend e (parse_from depth rest') else None
        | EmptyString => None
        end
      else if Ascii.eqb c "(" then parse_from (S depth) rest
      else if Ascii.eqb c ")" then
        match depth with
        | S d => parse_from d rest
        | O => None
        end
      else if Ascii.eqb c "$" then
        match rest, depth with
        | EmptyString, O => Some (Pattern "" true)
        | _, _ => None
        end
      else if syntax_char c then None
      else prepend c (parse_from depth rest)
  end.

Definition parse (source : string) : option pattern :=
  parse_from 0 source.

(** [s] without the leading [text], when [s] starts with it. *)
Fixpoint strip_prefix (text s : string) : option string :=
  match text, s with
  | EmptyString, _ => Some s
  | String a text', String b s' =>
      if Ascii.eqb a b then strip_prefix text' s' else None
  | String _ _, EmptyString => None
  end.

(** A match that starts at the first character of [s]. *)
Definition match_here (p : pattern) (s : string) : bool :=
  match strip_prefix (literal p) s with
  | Some rest => if at_end p then String.eqb rest "" else true
  | None => false
  end.

(** [re.test(s)]: a match starting at some position of [s], tried from left
    to right. *)
Fixpoint test (p : pattern) (s : string) : bool :=
  match_here p s
  || match s with
     | String _ s' => test p s'
     | EmptyString => false
     end.

(** [s] ends with [suffix]; [s] contains [text]. *)
Definition ends_with (suffix s : string) : Prop :=
  exists before, s = (before ++ suffix)%string.

Definition contains (text s : string) : Prop :=
  exists before after, s = (before ++ text ++ after)%string.

(** The last two characters of a string that has two. *)
Fixpoint last2 (s : string) : option (ascii * ascii) :=
  match s with
  | String a (String b EmptyString) => Some (a, b)
  | String _ rest => last2 rest
  | EmptyString => None
  end.

End Regex.

(** ** Which loaders a file goes through

  webpack hands a file to the loaders of every rule whose [test] matches the
  path of the file and whose [exclude], if it has one, does not. *)

Module Rules.
Import Config.

(** [pattern.test(path)] for the pattern with this source. *)
Definition condition (source path : string) : option bool :=
  p ← Regex.parse source;
  Some (Regex.test p path).

Definition rule_applies (r : rule_view) (path : string) : option bool :=
  t ← condition (rv_test r) path;
  x ← match rv_exclude r with
      | Some e => condition e path
      | None => Some false
      end;
  Some (t && negb x).

(** The chains of the rules that apply, in the order of the rules. *)
Fixpoint loaders_for (rules : list rule_view) (path : string)
    : option (list (string * option (list string))) :=
  match rules with
  | [] => Some []
  | r :: rest =>
      match rule_applies r path, loaders_for rest path with
      | Some applies, Some more =>
          Some (if applies then (rv_chain r ++ more)%list else more)
      | _, _ => None
      end
  end.

(** The loaders of a file under the newer revision, and under the older one
    with its loader names resolved. *)
Definition loaders_under_rules (__dirname path : string)
    : option (list (string * option (list string))) :=
  v ← view_rules (config_rules __dirname);
  loaders_for (cv_rules v) path.

Definition loaders_under_loaders (__dirname path : string)
    : option (list (string * option (list string))) :=
  v ← view_loaders (config_loaders __dirname);
  v ← resolve_view v;
  loaders_for (cv_rules v) path.

End Rules.

(** ** Directories as Node hands them out *)

Module Dirname.
Import Path.

(** An absolute path in normal form, other than the root: a leading [/]
    followed by plain segments separated by single [/].  [__dirname] has
    this form unless the file lies in the root directory. *)
Definition normalized (d : string) : bool :=
  match split_slash d with
  | EmptyString :: seg :: segs => forallb plain (seg :: segs)
  | _ => false
  end.

(** The directory part that [path.join(d, x)] puts before [/x]. *)
Definition joined_dir (d : string) : string :=
  match normalize_segments false d with
  | [] => ""
  | segs => ("/" ++ String.concat "/" segs)%string
  end.

End Dirname.

(** ** The page seen as a greeter

  What a user of the page sees of the script: the text in the input and the
  greetings in the container. *)

Module Greeter.
Import JS Dom Index.


Section Greeter.
Variable hello : value -> string.



End Greeter.


(** The trace without its events: what the user typed. *)
Definition edits_only (doc : document) (trace : list action) : document :=
  fold_left
    (fun doc a =>
       match a with
       | Edit j new => set_value j (VString new) doc
       | Fire _ => doc
       end)
    trace doc.

(** The listeners of a page on which only the script has registered one:
    the callback with these captured variables on the input, none
    elsewhere. *)
Definition wired (input : nat) (hellos : option nat) (doc : document) : Prop :=
  (exists el, doc !! input = Some el /\
     el_listeners el = [Listener "keyup" (KeyupCallback input hellos)]) /\
  (forall j el, j <> input -> doc !! j = Some el -> el_listeners el = []).

End Greeter.

(** * Properties *)

(** ** [path.join] *)

Module PathFacts.
Import Path.

#[local] Arguments String.append !_ _ /.

Lemma append_nil_r (s : string) : (s ++ "")%string = s.
Proof. induction s as [|c s IH]; simpl; [reflexivity | now rewrite IH]. Qed.

Lemma append_assoc (a b c : string) :
  ((a ++ b) ++ c)%string = (a ++ (b ++ c))%string.
Proof. induction a as [|x a IH]; simpl; [reflexivity | now rewrite IH]. Qed.

Lemma split_slash_nonempty (s : string) : split_slash s <> [].
Proof.
  induction s as [|c s IH]; simpl; [discriminate |].
  destruct (Ascii.eqb c "/"); [discriminate |].
  destruct (split_slash s); discriminate.
Qed.

(** Splitting distributes over a separator. *)
Lemma split_slash_app (a b : string) :
  split_slash (a ++ "/" ++ b) = (split_slash a ++ split_slash b)%list.
Proof.
  induction a as [|c a IH]; simpl in *; [reflexivity |].
  destruct (Ascii.eqb c "/"); [now rewrite IH |].
  rewrite IH.
  pose proof (split_slash_nonempty a) as Hne.
  destruct (split_slash a); [contradiction | reflexivity].
Qed.

(** Joining what was split gives the path back. *)
Lemma concat_split_slash (s : string) : String.concat "/" (split_slash s) = s.
Proof.
  induction s as [|c s IH]; simpl; [reflexivity |].
  pose proof (split_slash_nonempty s) as Hne.
  destruct (Ascii.eqb_spec c "/") as [->|Hc].
  - simpl. destruct (split_slash s) as [|seg segs]; [contradiction |].
    now rewrite IH.
  - destruct (split_slash s) as [|seg segs]; [contradiction |].
    rewrite <- IH. destruct segs; reflexivity.
Qed.

Lemma push_plain (allow : bool) (rstk : list string) (seg : string) :
  plain seg = true -> push_segment allow rstk seg = seg :: rstk.
Proof.
  unfold plain, push_segment. intros H.
  destruct (String.eqb seg ""), (String.eqb seg "."), (String.eqb seg "..");
    simpl in *; congruence.
Qed.

Lemma fold_push_plain (allow : bool) (segs rstk : list string) :
  forallb plain segs = true ->
  fold_left (push_segment allow) segs rstk = (rev segs ++ rstk)%list.
Proof.
  revert rstk. induction segs as [|seg segs IH]; intros rstk H; simpl in *.
  - reflexivity.
  - apply andb_true_iff in H as [Hseg Hsegs].
    rewrite push_plain by assumption. rewrite IH by assumption.
    now rewrite <- app_assoc.
Qed.

(** Below a directory [d], a path of plain segments is kept as it is. *)
Lemma normalize_segments_app (allow : bool) (d x : string) :
  forallb plain (split_slash x) = true ->
  normalize_segments allow (d ++ "/" ++ x)
  = (normalize_segments allow d ++ split_slash x)%list.
Proof.
  intros H. unfold normalize_segments.
  rewrite split_slash_app, fold_left_app, fold_push_plain by assumption.
  now rewrite rev_app_distr, rev_involutive.
Qed.

Lemma concat_app (l m : list string) :
  m <> [] ->
  String.concat "/" (l ++ m)
  = match l with
    | [] => String.concat "/" m
    | _ => (String.concat "/" l ++ "/" ++ String.concat "/" m)%string
    end.
Proof.
  intros Hm. induction l as [|a l IH]; [reflexivity |].
  destruct l as [|b l].
  - simpl. destruct m; [contradiction | reflexivity].
  - change (String.concat "/" ((a :: b :: l) ++ m))
      with (a ++ "/" ++ String.concat "/" ((b :: l) ++ m))%string.
    rewrite IH.
    change (String.concat "/" (a :: b :: l))
      with (a ++ "/" ++ String.concat "/" (b :: l))%string.
    now rewrite !append_assoc.
Qed.

Lemma trailingSeparator_app (d x : string) :
  x <> ""%string -> trailingSeparator (d ++ x) = trailingSeparator x.
Proof.
  intros Hx. induction d as [|c d IH]; [reflexivity |].
  simpl. destruct (d ++ x)%string eqn:E; [|assumption].
  destruct d; simpl in E; [contradiction | discriminate].
Qed.

Lemma eqb_append_nonempty (a b : string) :
  b <> ""%string -> String.eqb (a ++ b) "" = false.
Proof.
  intros Hb. destruct a; simpl; [|reflexivity].
  destruct b; [contradiction | reflexivity].
Qed.

Lemma join_two (d x : string) :
  String.eqb d "" = false -> String.eqb x "" = false ->
  join [d; x] = normalize (d ++ "/" ++ x).
Proof. intros Hd Hx. unfold join, List.filter. now rewrite Hd, Hx. Qed.

Lemma normalize_absolute (p : string) :
  isAbsolute p = true ->
  trailingSeparator p = false ->
  String.eqb (normalizeString p false) "" = false ->
  normalize p = ("/" ++ normalizeString p false)%string.
Proof.
  intros Ha Ht Hn. unfold normalize.
  assert (Hp : String.eqb p "" = false) by (destruct p; [discriminate | reflexivity]).
  rewrite Hp, Ha. change (negb true) with false. now rewrite Ht, Hn.
Qed.

(** [path.join(d, x)] for an absolute [d] and a path [x] of plain segments:
    an absolute path that ends in [/x]. *)
Lemma join_absolute_plain (d x : string) :
  isAbsolute d = true ->
  forallb plain (split_slash x) = true ->
  trailingSeparator x = false ->
  isAbsolute (join [d; x]) = true /\
  exists dir, join [d; x] = (dir ++ "/" ++ x)%string.
Proof.
  intros Hd Hx Ht.
  assert (Hxne : x <> ""%string) by (intros ->; discriminate).
  assert (Hdne : String.eqb d "" = false) by (destruct d; [discriminate | reflexivity]).
  assert (Hxe : String.eqb x "" = false) by (destruct x; [contradiction | reflexivity]).
  assert (Hsx : ("/" ++ x)%string <> ""%string) by discriminate.
  assert (Hn : normalizeString (d ++ "/" ++ x) false
               = match normalize_segments false d with
                 | [] => x
                 | segs => (String.concat "/" segs ++ "/" ++ x)%string
                 end).
  { unfold normalizeString. rewrite normalize_segments_app by assumption.
    rewrite concat_app by apply split_slash_nonempty.
    rewrite concat_split_slash.
    now destruct (normalize_segments false d). }
  rewrite join_two by assumption.
  rewrite normalize_absolute.
  - split; [reflexivity |]. rewrite Hn.
    destruct (normalize_segments false d) as [|s l].
    + now exists ""%string.
    + exists ("/" ++ String.concat "/" (s :: l))%string.
      now rewrite !append_assoc.
  - destruct d; [discriminate | exact Hd].
  - rewrite trailingSeparator_app by exact Hsx.
    change (trailingSeparator (String "/" x) = false).
    destruct x; [contradiction | exact Ht].
  - rewrite Hn. destruct (normalize_segments false d).
    + exact Hxe.
    + now apply eqb_append_nonempty.
Qed.

End PathFacts.

(** ** The greeting function *)

Module HelloFacts.
Import JS Hello.

(** C1.  [hello()] is exactly ["Hello, World!"] and [hello('Nick')] is
    exactly ["Hello, Nick!"]. *)
Theorem hello_world_and_nick :
  hello VUndefined = "Hello, World!" /\
  hello (VString "Nick") = "Hello, Nick!".
Proof. split; reflexivity. Qed.

(** C6.  The missing argument falls back to ['World']: [hello()] equals
    [hello('World')], in the CommonJS module of part 1 and, whatever the
    template, in the ES2015 module of part 2 with its default parameter; and
    for every argument the result of part 1's [hello] is a greeting, that is
    ["Hello, "], some text, ["!"]. *)
Theorem hello_default_fallback :
  hello VUndefined = hello (VString "World") /\
  (forall helloTpl,
     hello_es2015 helloTpl VUndefined = hello_es2015 helloTpl (VString "World")) /\
  (forall name, exists who, hello name = ("Hello, " ++ who ++ "!")%string).
Proof.
  split; [reflexivity |]. split; [reflexivity |].
  intros name. destruct name as [| |b|s].
  - now exists "World"%string.
  - now exists "null"%string.
  - exists (ToString (VBool b)). reflexivity.
  - now exists s.
Qed.

(** C8.  For every argument [n] other than [undefined], the empty string
    included, [hello(n)] is ['Hello, ' + n + '!']; the fallback is taken for
    [undefined] only, so that [hello('')] is ["Hello, !"] and not
    ["Hello, World!"]. *)
Theorem hello_defined_argument :
  (forall n, n <> VUndefined ->
     hello n = plus (plus "Hello, " n) (VString "!") /\
     hello n = ("Hello, " ++ ToString n ++ "!")%string) /\
  hello (VString "") = "Hello, !" /\
  hello (VString "") <> "Hello, World!".
Proof.
  split; [| split; [reflexivity | discriminate]].
  intros n Hn. destruct n as [| |b|s]; [contradiction | | |].
  - split; reflexivity.
  - split; reflexivity.
  - split; [reflexivity |]. unfold hello, plus. simpl.
    now rewrite PathFacts.append_assoc.
Qed.

Lemma hello_defined_argument_witness :
  VString "" <> VUndefined /\
  hello (VString "") = plus (plus "Hello, " (VString "")) (VString "!") /\
  hello (VString "") = ("Hello, " ++ ToString (VString "") ++ "!")%string.
Proof.
  split; [discriminate |].
  apply (proj1 hello_defined_argument (VString "")). discriminate.
Defined.

End HelloFacts.

(** ** The configuration object *)

Module ConfigFacts.
Import Path Config.

(** Closes a goal about the properties of a literal record. *)
Ltac literal :=
  repeat match goal with
    | |- _ /\ _ => split
    | |- exists _, _ => eexists
    | |- Forall _ _ => constructor
    | |- _ <> [] => discriminate
    | |- forall _, _ = Some _ -> _ =>
        let H := fresh in
        intros ? H; vm_compute in H; try discriminate H;
        injection H as <-
    | |- _ => reflexivity
    end.

(** C4.  In both revisions the list under [module] is an array of records
    that each have a [test] pattern and a chain ([use] in the newer schema;
    a [loader] name or a [loaders] chain in the older one); an [exclude]
    pattern occurs on the JavaScript rule only, and a [query] occurs with the
    babel loader only, where it is [{ presets: ['es2015'] }]. *)
Theorem rule_records_well_formed (__dirname : string) :
  (exists rules,
     module_list "rules" (config_rules __dirname) = Some (Arr rules) /\
     Forall well_formed_rule rules) /\
  (exists loaders,
     module_list "loaders" (config_loaders __dirname) = Some (Arr loaders) /\
     Forall well_formed_loader loaders).
Proof.
  split; (eexists; split; [reflexivity |]).
  - unfold well_formed_rule, has_test, exclude_only_on_js, query_only_on_babel.
    literal.
  - unfold well_formed_loader, has_test, exclude_only_on_js,
      query_only_on_babel.
    repeat (apply List.Forall_cons); try apply List.Forall_nil.
    + split; [literal | split; [left; literal | literal]].
    + split; [literal | split; [left; literal | literal]].
    + split; [literal | split; [right; literal | literal]].
    + split; [literal | split; [left; literal | literal]].
Qed.

(** C5.  With the configuration file in an absolute directory, [entry] is
    one string, the absolute path [path.join(__dirname, 'src/index.js')] of
    the file [src/index.js] below that directory; [output.path] is one
    string, the absolute path [path.join(__dirname, 'dist')] of the directory
    [dist] below it; and [output.filename] is ['index.bundle.js'].  This
    holds for both revisions. *)
Theorem entry_and_output (__dirname : string) (c : data) :
  isAbsolute __dirname = true ->
  c = config_rules __dirname \/ c = config_loaders __dirname ->
  let entry := Path.join [__dirname; "src/index.js"] in
  let dist := Path.join [__dirname; "dist"] in
  prop "entry" c = Some (Str entry) /\
  isAbsolute entry = true /\
  (exists dir, entry = (dir ++ "/src/index.js")%string) /\
  (exists output,
     prop "output" c = Some output /\
     keys output = ["path"; "filename"] /\
     prop "path" output = Some (Str dist) /\
     prop "filename" output = Some (Str "index.bundle.js")) /\
  isAbsolute dist = true /\
  (exists dir, dist = (dir ++ "/dist")%string).
Proof.
  intros Hd Hc entry dist.
  destruct (PathFacts.join_absolute_plain __dirname "src/index.js" Hd
              eq_refl eq_refl) as [He1 He2].
  destruct (PathFacts.join_absolute_plain __dirname "dist" Hd
              eq_refl eq_refl) as [Ho1 Ho2].
  destruct Hc as [-> | ->];
    (split; [reflexivity |]; split; [exact He1 |]; split; [exact He2 |];
     split; [| split; [exact Ho1 | exact Ho2]];
     eexists; repeat split; reflexivity).
Qed.

Lemma entry_and_output_witness :
  isAbsolute "/home/nick/app" = true /\
  prop "entry" (config_rules "/home/nick/app")
  = Some (Str "/home/nick/app/src/index.js") /\
  prop "entry" (config_loaders "/home/nick/app")
  = Some (Str "/home/nick/app/src/index.js").
Proof.
  split; [reflexivity |]. split.
  - exact (proj1 (entry_and_output "/home/nick/app"
                    (config_rules "/home/nick/app") eq_refl
                    (or_introl eq_refl))).
  - exact (proj1 (entry_and_output "/home/nick/app"
                    (config_loaders "/home/nick/app") eq_refl
                    (or_intror eq_refl))).
Defined.

(** C2, as stated, fails: read through their own schema keys, the two
    revisions do not have the same content, because the older one names its
    loaders ['html'], ['handlebars'], ['style'] and ['css'] where the newer
    one names ['html-loader'], ['handlebars-loader'], ['style-loader'] and
    ['css-loader']. *)
Lemma revisions_differ_in_loader_names :
  view_rules (config_rules "/home/nick/app")
  <> view_loaders (config_loaders "/home/nick/app").
Proof. vm_compute. discriminate. Qed.

(** C2, amended.  Both revisions have the same entry, output directory and
    output file name, and the same rules in the same order with the same test
    and exclude patterns and the same presets; the loader names of the older
    revision become those of the newer one once they are resolved the way
    webpack 1 resolves them.  The content is: html to the html loader, hbs to
    the handlebars loader, css to the style then the css loader, js outside
    node_modules to the babel loader with preset es2015. *)
Theorem revisions_same_content (__dirname : string) :
  prop "entry" (config_rules __dirname) = prop "entry" (config_loaders __dirname) /\
  prop "output" (config_rules __dirname) = prop "output" (config_loaders __dirname) /\
  view_rules (config_rules __dirname) = Some (expected_view __dirname) /\
  (exists old,
     view_loaders (config_loaders __dirname) = Some old /\
     resolve_view old = Some (expected_view __dirname) /\
     cv_entry old = cv_entry (expected_view __dirname) /\
     cv_path old = cv_path (expected_view __dirname) /\
     cv_filename old = cv_filename (expected_view __dirname) /\
     map rv_test (cv_rules old) = map rv_test (cv_rules (expected_view __dirname)) /\
     map rv_exclude (cv_rules old)
     = map rv_exclude (cv_rules (expected_view __dirname)) /\
     map (fun r => map snd (rv_chain r)) (cv_rules old)
     = map (fun r => map snd (rv_chain r)) (cv_rules (expected_view __dirname))).
Proof.
  do 3 (split; [reflexivity |]).
  eexists. split; [reflexivity |]. repeat split; reflexivity.
Qed.

End ConfigFacts.

(** ** The entry script *)

Module IndexFacts.
Import JS Dom Index.

Section Alter.
Context {A B : Type} (proj : A -> B) (g : A -> A).
Hypothesis proj_g : forall x, proj (g x) = proj x.

(** An update that leaves a field alone leaves it alone everywhere. *)
Lemma lookup_alter_proj (l : list A) (i j : nat) :
  proj <$> alter g i l !! j = proj <$> l !! j.
Proof.
  rewrite list_lookup_alter. destruct (decide (i = j)) as [->|]; [|done].
  destruct (l !! j); simpl; [now rewrite proj_g | done].
Qed.

Lemma fmap_alter_proj (l : list A) (i : nat) :
  proj <$> alter g i l = proj <$> l.
Proof.
  apply list_eq. intros j. rewrite !list_lookup_fmap. apply lookup_alter_proj.
Qed.

End Alter.

Lemma querySelector_from_Some (sel : selector) (doc : list element) (n i : nat) :
  querySelector_from n sel doc = Some i ->
  (n <= i)%nat /\
  exists el, doc !! (i - n)%nat = Some el /\ matches sel el = true.
Proof.
  revert n. induction doc as [|el doc IH]; intros n H; simpl in H.
  - discriminate.
  - destruct (matches sel el) eqn:Hm.
    + injection H as <-. split; [lia |]. exists el.
      now replace (n - n)%nat with 0%nat by lia.
    + destruct (IH _ H) as [Hle (el' & Hl & Hm')].
      split; [lia |]. exists el'. split; [| exact Hm'].
      replace (i - n)%nat with (S (i - S n)) by lia. exact Hl.
Qed.

(** What [querySelector] returns is an element of the document that matches. *)
Lemma querySelector_Some (sel : selector) (doc : document) (i : nat) :
  querySelector sel doc = Some i ->
  exists el, doc !! i = Some el /\ matches sel el = true.
Proof.
  intros H. destruct (querySelector_from_Some _ _ _ _ H) as [_ (el & Hl & Hm)].
  exists el. now replace (i - 0)%nat with i in Hl by lia.
Qed.

Lemma listener_count_add (doc : document) (i : nat) (el : element)
    (type : string) (cb : callback) :
  doc !! i = Some el ->
  listener_count (addEventListener i type cb doc) = S (listener_count doc).
Proof.
  unfold listener_count, addEventListener.
  revert i. induction doc as [|x doc IH]; intros i H; [discriminate |].
  destruct i as [|i]; simpl in *.
  - rewrite length_app. simpl. lia.
  - specialize (IH i H). unfold alter in IH. rewrite IH. lia.
Qed.

Section Handler.
Variable hello : value -> string.

Lemma on_keyup_listeners (input : nat) (hellos : option nat) (e : event)
    (doc doc' : document) :
  on_keyup hello input hellos e doc = Some doc' ->
  el_listeners <$> doc' = el_listeners <$> doc.
Proof.
  unfold on_keyup. destruct (Z.eqb (ev_keyCode e) 13).
  - destruct hellos as [h|]; [| discriminate].
    destruct (doc !! ev_target e) as [target|]; [| discriminate].
    intros [= <-]. cbv zeta. unfold set_value, insertAdjacentHTML_beforeend.
    now rewrite !fmap_alter_proj.
  - now intros [= <-].
Qed.

Lemma dispatch_listeners (e : event) (doc : document) :
  el_listeners <$> dispatch hello e doc = el_listeners <$> doc.
Proof.
  unfold dispatch. destruct (doc !! ev_target e) as [target|]; [| done].
  generalize (el_listeners target). intros ls. revert doc.
  induction ls as [|l ls IH]; intros doc; simpl; [done |].
  rewrite IH. destruct (String.eqb (l_type l) (ev_type e)); [| done].
  destruct (l_callback l) as [input hellos]. simpl.
  destruct (on_keyup hello input hellos e doc) as [doc'|] eqn:E; [| done].
  simpl. now apply on_keyup_listeners in E.
Qed.

Lemma run_listeners (trace : list action) (doc : document) :
  el_listeners <$> run hello doc trace = el_listeners <$> doc.
Proof.
  unfold run. revert doc.
  induction trace as [|a trace IH]; intros doc; simpl; [done |].
  rewrite IH. destruct a as [e | i text]; simpl.
  - apply dispatch_listeners.
  - unfold set_value. now rewrite fmap_alter_proj.
Qed.

(** The callback on Enter, with [hellos] found: the greeting for the
    target's value goes to the end of the container, the input is cleared,
    and nothing else changes. *)
Lemma on_keyup_enter (input hellos : nat) (e : event) (doc : document)
    (target container field : element) :
  ev_keyCode e = 13 ->
  doc !! ev_target e = Some target ->
  doc !! hellos = Some container ->
  doc !! input = Some field ->
  exists doc',
    on_keyup hello input (Some hellos) e doc = Some doc' /\
    el_content <$> doc' !! hellos
    = Some (el_content container ++ [hello (el_value target)])%list /\
    el_value <$> doc' !! input = Some (VString "") /\
    (forall j, j <> hellos -> el_content <$> doc' !! j = el_content <$> doc !! j) /\
    (forall j, j <> input -> el_value <$> doc' !! j = el_value <$> doc !! j) /\
    el_listeners <$> doc' = el_listeners <$> doc /\
    el_tag <$> doc' = el_tag <$> doc /\
    el_id <$> doc' = el_id <$> doc /\
    el_classes <$> doc' = el_classes <$> doc.
Proof.
  intros Hk Ht Hh Hi. unfold on_keyup. rewrite Hk, Ht. simpl.
  eexists. split; [reflexivity |].
  unfold set_value, insertAdjacentHTML_beforeend.
  repeat split.
  - rewrite lookup_alter_proj by done.
    now rewrite list_lookup_alter_eq, Hh.
  - rewrite list_lookup_alter_eq.
    destruct (alter _ hellos doc !! input) as [x|] eqn:E; [done |].
    apply lookup_ge_None in E. rewrite length_alter in E.
    apply lookup_lt_Some in Hi. lia.
  - intros j Hj. rewrite lookup_alter_proj by done.
    now rewrite list_lookup_alter_ne.
  - intros j Hj. rewrite list_lookup_alter_ne by done.
    now rewrite lookup_alter_proj.
  - now rewrite !fmap_alter_proj.
  - now rewrite !fmap_alter_proj.
  - now rewrite !fmap_alter_proj.
  - now rewrite !fmap_alter_proj.
Qed.

(** The callback on any other key. *)
Lemma on_keyup_other (input : nat) (hellos : option nat) (e : event)
    (doc : document) :
  ev_keyCode e <> 13 -> on_keyup hello input hellos e doc = Some doc.
Proof.
  intros Hk. unfold on_keyup.
  now destruct (Z.eqb_spec (ev_keyCode e) 13).
Qed.

End Handler.

(** C9.  On an event whose [keyCode] is not 13 the callback returns
    without a change, and so does the dispatch of such an event on any
    page: the document after it, with the input's value and the content of
    every container, is the document before it. *)
Theorem other_keys_change_nothing (hello : value -> string) (input : nat)
    (hellos : option nat) (e : event) (doc : document) :
  ev_keyCode e <> 13 ->
  on_keyup hello input hellos e doc = Some doc /\
  dispatch hello e doc = doc.
Proof.
  intros Hk. split; [now apply on_keyup_other |].
  unfold dispatch. destruct (doc !! ev_target e) as [target|]; [| done].
  induction (el_listeners target) as [|l ls IH]; simpl; [done |].
  destruct (String.eqb (l_type l) (ev_type e)); [| exact IH].
  destruct (l_callback l) as [i h]. simpl.
  now rewrite on_keyup_other.
Qed.

Lemma other_keys_change_nothing_witness :
  (65 <> 13)%Z /\
  dispatch Hello.hello (Event "keyup" 65 0)
    (addEventListener 0 "keyup" (KeyupCallback 0 (Some 1%nat)) page)
  = addEventListener 0 "keyup" (KeyupCallback 0 (Some 1%nat)) page.
Proof.
  split; [lia |].
  apply (other_keys_change_nothing Hello.hello 0 (Some 1%nat)
           (Event "keyup" 65 0)).
  simpl. lia.
Defined.

(** C10.  On an event whose [keyCode] is 13, with the container found, the
    callback puts [hello(e.target.value)] after everything the container
    already holds, which it keeps in order, and then sets the input's value
    to the empty string; the content of the other elements, the value of the
    other elements, and all listeners, tags, ids and classes stay. *)
Theorem enter_appends_then_clears (hello : value -> string)
    (input hellos : nat) (e : event) (doc : document)
    (target container field : element) :
  ev_keyCode e = 13 ->
  doc !! ev_target e = Some target ->
  doc !! hellos = Some container ->
  doc !! input = Some field ->
  exists doc',
    on_keyup hello input (Some hellos) e doc = Some doc' /\
    el_content <$> doc' !! hellos
    = Some (el_content container ++ [hello (el_value target)])%list /\
    el_value <$> doc' !! input = Some (VString "") /\
    (forall j, j <> hellos -> el_content <$> doc' !! j = el_content <$> doc !! j) /\
    (forall j, j <> input -> el_value <$> doc' !! j = el_value <$> doc !! j) /\
    el_listeners <$> doc' = el_listeners <$> doc /\
    el_tag <$> doc' = el_tag <$> doc /\
    el_id <$> doc' = el_id <$> doc /\
    el_classes <$> doc' = el_classes <$> doc.
Proof. apply on_keyup_enter. Qed.

Lemma enter_appends_then_clears_witness :
  exists doc',
    on_keyup Hello.hello 0 (Some 1%nat) (Event "keyup" 13 0)
      (set_value 0 (VString "Nick") page) = Some doc' /\
    el_content <$> doc' !! 1%nat = Some ["Hello, Nick!"] /\
    el_value <$> doc' !! 0%nat = Some (VString "").
Proof.
  destruct (enter_appends_then_clears Hello.hello 0 1 (Event "keyup" 13 0)
              (set_value 0 (VString "Nick") page) _ _ _
              eq_refl eq_refl eq_refl eq_refl)
    as (doc' & Hrun & Hcontent & Hvalue & _).
  exists doc'. split; [exact Hrun |]. split; [exact Hcontent | exact Hvalue].
Defined.

Lemma listener_count_fmap (a b : document) :
  el_listeners <$> a = el_listeners <$> b ->
  listener_count a = listener_count b.
Proof.
  unfold listener_count. revert b.
  induction a as [|x a IH]; intros [|y b] H; simpl in *; try discriminate.
  - reflexivity.
  - injection H as Hx Hab. now rewrite Hx, (IH b Hab).
Qed.

(** What the script does when the input is there. *)
Lemma index_js_registers (doc : document) (i : nat) :
  querySelector (ByClass "js-add-hello") doc = Some i ->
  index_js doc
  = Some (addEventListener i "keyup"
            (KeyupCallback i (querySelector (ById "hellos") doc)) doc).
Proof. intros H. unfold index_js. now rewrite H. Qed.

(** C7.  When the input is on the page, the script returns having
    registered one listener: the listener lists of the page are as before,
    except for the input's, which has the [keyup] callback added at its end;
    and whatever events are dispatched and whatever the user types
    afterwards, the listener lists stay as the script left them. *)
Theorem one_listener_registered_at_startup (hello : value -> string)
    (doc : document) (i : nat) :
  querySelector (ByClass "js-add-hello") doc = Some i ->
  exists doc',
    index_js doc = Some doc' /\
    listener_count doc' = S (listener_count doc) /\
    el_listeners <$> doc'
    = alter (fun ls =>
               (ls ++ [Listener "keyup"
                         (KeyupCallback i (querySelector (ById "hellos") doc))])%list)
        i (el_listeners <$> doc) /\
    forall trace,
      el_listeners <$> run hello doc' trace = el_listeners <$> doc' /\
      listener_count (run hello doc' trace) = listener_count doc'.
Proof.
  intros Hq. eexists. split; [exact (index_js_registers doc i Hq) |].
  destruct (querySelector_Some _ _ _ Hq) as (el & Hel & _).
  split; [now apply (listener_count_add doc i el) |].
  split.
  - unfold addEventListener. apply list_fmap_alter.
    apply Forall_forall. reflexivity.
  - intros trace.
    pose proof (run_listeners hello trace
                  (addEventListener i "keyup"
                     (KeyupCallback i (querySelector (ById "hellos") doc)) doc))
      as H.
    split; [exact H | now apply listener_count_fmap].
Qed.

Lemma one_listener_registered_at_startup_witness :
  exists doc',
    index_js page = Some doc' /\
    listener_count doc' = 1%nat /\
    listener_count
      (run Hello.hello doc'
         [Edit 0 "Nick"; Fire (Event "keyup" 13 0); Fire (Event "click" 0 1)])
    = 1%nat.
Proof.
  destruct (one_listener_registered_at_startup Hello.hello page 0 eq_refl)
    as (doc' & Hrun & Hcount & _ & Hafter).
  exists doc'. split; [exact Hrun |]. split; [exact Hcount |].
  destruct (Hafter [Edit 0 "Nick"; Fire (Event "keyup" 13 0);
                    Fire (Event "click" 0 1)]) as [_ H].
  rewrite H. exact Hcount.
Defined.

(** C3, as stated, fails: on the page of part 2 the script returns, and
    afterwards no element of the page has a listener for [click]. *)
Lemma no_click_listener_registered :
  exists doc',
    index_js page = Some doc' /\
    ~ (exists i el l,
         doc' !! i = Some el /\ In l (el_listeners el) /\ l_type l = "click").
Proof.
  eexists. split; [reflexivity |].
  intros (i & el & l & Hi & Hl & Ht).
  destruct i as [|[|i]]; simpl in Hi; try discriminate;
    injection Hi as <-; simpl in Hl.
  - destruct Hl as [<- | []]. discriminate.
  - destruct Hl.
Qed.

(** C3, amended.  The script wires the [keyup] event of the element of
    class [js-add-hello] to insertion: when that element and the [#hellos]
    container are on the page, the script registers on the former a listener
    for [keyup]; on a page where it had no listener before, a click there
    changes nothing, and a [keyup] with [keyCode] 13 there puts the greeting
    for its value at the end of the container. *)
Theorem keyup_wired_to_insertion (hello : value -> string) (doc : document)
    (i h : nat) (field container : element) :
  querySelector (ByClass "js-add-hello") doc = Some i ->
  querySelector (ById "hellos") doc = Some h ->
  doc !! i = Some field ->
  doc !! h = Some container ->
  el_listeners field = [] ->
  exists doc',
    index_js doc = Some doc' /\
    el_listeners <$> doc' !! i
    = Some [Listener "keyup" (KeyupCallback i (Some h))] /\
    (forall keyCode, dispatch hello (Event "click" keyCode i) doc' = doc') /\
    el_content <$> dispatch hello (Event "keyup" 13 i) doc' !! h
    = Some (el_content container ++ [hello (el_value field)])%list.
Proof.
  intros Hqi Hqh Hi Hh Hnil.
  eexists. split; [exact (index_js_registers doc i Hqi) |].
  rewrite Hqh.
  set (cb := KeyupCallback i (Some h)).
  set (doc' := addEventListener i "keyup" cb doc).
  set (field' := Element (el_tag field) (el_id field) (el_classes field)
                   (el_value field) (el_content field) [Listener "keyup" cb]).
  assert (Hi' : doc' !! i = Some field').
  { unfold doc', addEventListener. rewrite list_lookup_alter_eq, Hi. simpl.
    unfold field'. now rewrite Hnil. }
  assert (Hh' : exists c, doc' !! h = Some c /\ el_content c = el_content container).
  { assert (E : el_content <$> doc' !! h = el_content <$> doc !! h)
      by (unfold doc', addEventListener; now apply lookup_alter_proj).
    rewrite Hh in E. destruct (doc' !! h) as [c|]; [| discriminate].
    exists c. split; [reflexivity |]. now injection E. }
  destruct Hh' as (c & Hc & Hcc).
  split; [now rewrite Hi' |]. split.
  - intros keyCode. unfold dispatch. simpl. now rewrite Hi'.
  - destruct (on_keyup_enter hello i h (Event "keyup" 13 i) doc' field' c field'
                eq_refl Hi' Hc Hi') as (doc'' & Hrun & Hcontent & _).
    unfold dispatch. simpl ev_target. rewrite Hi'. simpl.
    rewrite Hrun. simpl. now rewrite Hcontent, Hcc.
Qed.

Lemma keyup_wired_to_insertion_witness :
  exists doc',
    index_js page = Some doc' /\
    el_listeners <$> doc' !! 0%nat
    = Some [Listener "keyup" (KeyupCallback 0 (Some 1%nat))] /\
    el_content <$> dispatch Hello.hello (Event "keyup" 13 0) doc' !! 1%nat
    = Some ["Hello, !"].
Proof.
  destruct (keyup_wired_to_insertion Hello.hello page 0 1 _ _
              eq_refl eq_refl eq_refl eq_refl eq_refl)
    as (doc' & Hrun & Hl & _ & Hc).
  exists doc'. split; [exact Hrun |]. split; [exact Hl | exact Hc].
Defined.

End IndexFacts.

(** ** Worked examples *)

Example hello_null : Hello.hello JS.VNull = "Hello, null!".
Proof. reflexivity. Qed.

Example join_normalizes :
  Path.join ["/home/nick/app/"; "../app2/./src/index.js"]
  = "/home/nick/app2/src/index.js".
Proof. reflexivity. Qed.

Example resolve_html : Config.resolve_loader "html" = Some "html-loader".
Proof. reflexivity. Qed.

Example resolve_babel : Config.resolve_loader "babel-loader" = Some "babel-loader".
Proof. reflexivity. Qed.

(** Two names typed and confirmed with Enter, the second one empty. *)
Example session :
  exists doc,
    Index.index_js Index.page = Some doc /\
    Index.run Hello.hello doc
      [Index.Edit 0 "Nick"; Index.Fire (Dom.Event "keyup" 78 0);
       Index.Fire (Dom.Event "keyup" 13 0); Index.Fire (Dom.Event "keyup" 13 0)]
    = [ Dom.Element "input" None ["Input"; "js-add-hello"] (JS.VString "") []
          [Dom.Listener "keyup" (Dom.KeyupCallback 0 (Some 1%nat))];
        Dom.Element "div" (Some "hellos") [] JS.VUndefined
          ["Hello, Nick!"; "Hello, !"] [] ].
Proof. eexists. split; [reflexivity |]. vm_compute. reflexivity. Qed.

(** * Further properties *)

(** ** Patterns *)

Module RegexFacts.
Import Regex.

#[local] Arguments String.append !_ _ /.

Lemma strip_prefix_Some (t s rest : string) :
  strip_prefix t s = Some rest <-> s = (t ++ rest)%string.
Proof.
  revert s. induction t as [|a t IH]; intros s; simpl.
  - split; [now intros [= ->] | now intros ->].
  - destruct s as [|b s].
    + split; discriminate.
    + destruct (Ascii.eqb_spec a b) as [->|Hab].
      * rewrite IH. split; [now intros -> | now intros [= ->]].
      * split; [discriminate | intros [= -> _]; contradiction].
Qed.

Lemma test_here (p : pattern) (s : string) :
  match_here p s = true -> test p s = true.
Proof. intros H. destruct s; simpl; now rewrite H. Qed.

(** A pattern that ends in [$] holds of the strings that end with its
    text. *)
Lemma test_at_end (t s : string) :
  test (Pattern t true) s = true <-> ends_with t s.
Proof.
  split.
  - induction s as [|c s IH]; simpl; unfold match_here; simpl; intros H.
    + rewrite orb_false_r in H.
      destruct (strip_prefix t "") as [rest|] eqn:E; [| discriminate].
      apply strip_prefix_Some in E. exists ""%string. simpl.
      apply String.eqb_eq in H. subst rest. now rewrite PathFacts.append_nil_r in E.
    + apply orb_true_iff in H as [H|H].
      * destruct (strip_prefix t (String c s)) as [rest|] eqn:E; [| discriminate].
        apply strip_prefix_Some in E. apply String.eqb_eq in H. subst rest.
        exists ""%string. simpl. now rewrite PathFacts.append_nil_r in E.
      * destruct (IH H) as [before ->]. now exists (String c before).
  - intros [before ->]. induction before as [|c before IH]; simpl.
    + assert (E : match_here (Pattern t true) t = true).
      { unfold match_here. simpl.
        destruct (strip_prefix t t) as [rest|] eqn:E.
        - apply strip_prefix_Some in E.
          rewrite <- (PathFacts.append_nil_r t) in E at 1.
          apply String.app_inj in E. subst rest. reflexivity.
        - pose proof (proj2 (strip_prefix_Some t t "")) as H.
          rewrite PathFacts.append_nil_r in H. now rewrite H in E. }
      now apply test_here.
    + rewrite IH. apply orb_true_r.
Qed.

(** A pattern without [$] holds of the strings that contain its text. *)
Lemma test_anywhere (t s : string) :
  test (Pattern t false) s = true <-> contains t s.
Proof.
  split.
  - induction s as [|c s IH]; simpl; unfold match_here; simpl; intros H.
    + rewrite orb_false_r in H.
      destruct (strip_prefix t "") as [rest|] eqn:E; [| discriminate].
      apply strip_prefix_Some in E. now exists ""%string, rest.
    + apply orb_true_iff in H as [H|H].
      * destruct (strip_prefix t (String c s)) as [rest|] eqn:E; [| discriminate].
        apply strip_prefix_Some in E. now exists ""%string, rest.
      * destruct (IH H) as (before & after & ->).
        now exists (String c before), after.
  - intros (before & after & ->). induction before as [|c before IH]; simpl.
    + assert (E : match_here (Pattern t false) (t ++ after) = true).
      { unfold match_here. simpl.
        now rewrite (proj2 (strip_prefix_Some t (t ++ after) after) eq_refl). }
      now apply test_here.
    + rewrite IH. apply orb_true_r.
Qed.

Lemma last2_cons (c : ascii) (s : string) :
  (2 <= String.length s)%nat -> last2 (String c s) = last2 s.
Proof.
  intros H. destruct s as [|a [|b s]]; simpl in *; try lia. reflexivity.
Qed.

Lemma length_append (a b : string) :
  String.length (a ++ b) = (String.length a + String.length b)%nat.
Proof. induction a as [|c a IH]; simpl; [reflexivity | now rewrite IH]. Qed.

(** The last two characters of a string are those of any suffix that has
    two. *)
Lemma last2_ends_with (t s : string) :
  (2 <= String.length t)%nat -> ends_with t s -> last2 s = last2 t.
Proof.
  intros Ht [before ->]. induction before as [|c before IH].
  - reflexivity.
  - change (String c before ++ t)%string with (String c (before ++ t)).
    rewrite last2_cons; [exact IH |]. rewrite length_append. lia.
Qed.

End RegexFacts.

(** ** Which loaders a file goes through *)

Module RulesFacts.
Import Config Regex Rules RegexFacts.

Lemma test_end_last2 (t s : string) :
  (2 <= String.length t)%nat ->
  test (Pattern t true) s = true -> last2 s = last2 t.
Proof. intros Ht H. apply last2_ends_with; [exact Ht | now apply test_at_end]. Qed.

(** The four [test] patterns tell files apart by their last two characters. *)
Lemma tests_by_last2 (path : string) :
  (test (Pattern ".html" true) path = true -> last2 path = Some ("m", "l")%char) /\
  (test (Pattern ".hbs" true) path = true -> last2 path = Some ("b", "s")%char) /\
  (test (Pattern ".css" true) path = true -> last2 path = Some ("s", "s")%char) /\
  (test (Pattern ".js" true) path = true -> last2 path = Some ("j", "s")%char).
Proof.
  repeat split; intros T.
  - exact (test_end_last2 ".html" path ltac:(simpl; lia) T).
  - exact (test_end_last2 ".hbs" path ltac:(simpl; lia) T).
  - exact (test_end_last2 ".css" path ltac:(simpl; lia) T).
  - exact (test_end_last2 ".js" path ltac:(simpl; lia) T).
Qed.

(** Turns what is known about a path into values of the tests, takes every
    test both ways, and drops the impossible combinations. *)
Ltac by_tests path :=
  repeat match goal with
    | H : ends_with _ path |- _ => apply test_at_end in H
    | H : contains _ path |- _ => apply test_anywhere in H
    | H : ~ ends_with _ path |- _ => rewrite <- test_at_end in H
    | H : ~ contains _ path |- _ => rewrite <- test_anywhere in H
    end;
  destruct (tests_by_last2 path) as (?L & ?L & ?L & ?L);
  destruct (test (Pattern ".html" true) path);
  destruct (test (Pattern ".hbs" true) path);
  destruct (test (Pattern ".css" true) path);
  destruct (test (Pattern ".js" true) path);
  destruct (test (Pattern "node_modules" false) path);
  repeat match goal with
    | H : true = true -> _ |- _ => specialize (H eq_refl)
    end;
  try congruence; try reflexivity.

(** X1.  Which loaders a file goes through is decided by the end of its
    path, and is the same under both revisions (the older one with its
    loader names resolved): a path ending in [.html] goes through the html
    loader, one ending in [.hbs] through the handlebars loader, one ending in
    [.css] through the style and css loaders, one ending in [.js] through
    the babel loader with preset es2015 unless it contains [node_modules], in
    which case it goes through none; and any other path goes through none.
    No file gets the loaders of two rules. *)
Theorem loaders_by_extension (__dirname path : string) :
  let chain := loaders_under_rules __dirname path in
  loaders_under_loaders __dirname path = chain /\
  (ends_with ".html" path -> chain = Some [("html-loader", None)]) /\
  (ends_with ".hbs" path -> chain = Some [("handlebars-loader", None)]) /\
  (ends_with ".css" path ->
     chain = Some [("style-loader", None); ("css-loader", None)]) /\
  (ends_with ".js" path -> ~ contains "node_modules" path ->
     chain = Some [("babel-loader", Some ["es2015"])]) /\
  (ends_with ".js" path -> contains "node_modules" path -> chain = Some []) /\
  (~ ends_with ".html" path -> ~ ends_with ".hbs" path ->
   ~ ends_with ".css" path -> ~ ends_with ".js" path -> chain = Some []).
Proof.
  intros chain. split; [reflexivity |].
  assert (E : chain = loaders_for (cv_rules (expected_view __dirname)) path)
    by reflexivity.
  rewrite E. clear E chain. cbn. rewrite !andb_true_r.
  repeat split; intros; by_tests path.
Qed.

Lemma loaders_by_extension_witness :
  ends_with ".css" "/home/nick/app/src/style.css" /\
  loaders_under_rules "/home/nick/app" "/home/nick/app/src/style.css"
  = Some [("style-loader", None); ("css-loader", None)].
Proof.
  assert (H : ends_with ".css" "/home/nick/app/src/style.css")
    by now exists "/home/nick/app/src/style"%string.
  split; [exact H |].
  exact (proj1 (proj2 (proj2 (proj2
           (loaders_by_extension "/home/nick/app"
              "/home/nick/app/src/style.css")))) H).
Defined.

(** X2.  The two spellings of the exclude pattern, [/(node_modules)/] in
    the configuration files and [/node_modules/] in the text of part 2, hold
    of the same paths: those that contain [node_modules]. *)
Theorem exclude_patterns_agree (path : string) :
  condition "(node_modules)" path = condition "node_modules" path /\
  (condition "(node_modules)" path = Some true <->
   contains "node_modules" path).
Proof.
  split; [reflexivity |].
  change (condition "(node_modules)" path)
    with (Some (test (Pattern "node_modules" false) path)).
  rewrite <- test_anywhere. split; [now intros [= ->] | now intros ->].
Qed.

End RulesFacts.

(** ** The configured paths *)

Module DirnameFacts.
Import Path Config Dirname PathFacts.

#[local] Arguments String.append !_ _ /.

(** [path.join(d, x)] for an absolute [d] and a path [x] of plain segments
    puts [x] below the normal form of [d]. *)
Lemma join_below (d x : string) :
  isAbsolute d = true ->
  forallb plain (split_slash x) = true ->
  trailingSeparator x = false ->
  join [d; x] = (joined_dir d ++ "/" ++ x)%string.
Proof.
  intros Hd Hx Ht.
  assert (Hxne : x <> ""%string) by (intros ->; discriminate).
  assert (Hdne : String.eqb d "" = false) by (destruct d; [discriminate | reflexivity]).
  assert (Hxe : String.eqb x "" = false) by (destruct x; [contradiction | reflexivity]).
  assert (Hn : normalizeString (d ++ "/" ++ x) false
               = match normalize_segments false d with
                 | [] => x
                 | segs => (String.concat "/" segs ++ "/" ++ x)%string
                 end).
  { unfold normalizeString. rewrite normalize_segments_app by assumption.
    rewrite concat_app by apply split_slash_nonempty.
    rewrite concat_split_slash.
    now destruct (normalize_segments false d). }
  rewrite join_two by assumption.
  rewrite normalize_absolute.
  - rewrite Hn. unfold joined_dir.
    destruct (normalize_segments false d) as [|s l]; [reflexivity |].
    now rewrite !append_assoc.
  - destruct d; [discriminate | exact Hd].
  - rewrite trailingSeparator_app by discriminate.
    change (trailingSeparator (String "/" x) = false).
    destruct x; [contradiction | exact Ht].
  - rewrite Hn. destruct (normalize_segments false d).
    + exact Hxe.
    + apply eqb_append_nonempty. discriminate.
Qed.

(** A directory in normal form is absolute and is its own normal form. *)
Lemma normalized_dir (d : string) :
  normalized d = true -> isAbsolute d = true /\ joined_dir d = d.
Proof.
  unfold normalized. intros H.
  destruct (split_slash d) as [|s0 [|seg segs]] eqn:E;
    [discriminate H | destruct s0; discriminate H |].
  destruct s0; [| discriminate H].
  assert (Hd : d = ("/" ++ String.concat "/" (seg :: segs))%string).
  { rewrite <- (concat_split_slash d) at 1. rewrite E. reflexivity. }
  split.
  - rewrite Hd. reflexivity.
  - unfold joined_dir, normalize_segments. rewrite E.
    change (fold_left (push_segment false) ("" :: seg :: segs)%string [])
      with (fold_left (push_segment false) (seg :: segs) []).
    rewrite fold_push_plain by exact H.
    rewrite app_nil_r, rev_involutive. symmetry. exact Hd.
Qed.

(** Below a directory in normal form, a path of plain segments is again in
    normal form. *)
Lemma normalized_below (d x : string) :
  normalized d = true ->
  forallb plain (split_slash x) = true ->
  normalized (d ++ "/" ++ x) = true.
Proof.
  unfold normalized. intros Hd Hx. rewrite split_slash_app.
  destruct (split_slash d) as [|s0 [|seg segs]];
    [discriminate Hd | destruct s0; discriminate Hd |].
  destruct s0; [| discriminate Hd].
  change (forallb plain ((seg :: segs) ++ split_slash x) = true).
  rewrite forallb_app. now rewrite Hd, Hx.
Qed.

Lemma join_normalized (d x : string) :
  normalized d = true ->
  forallb plain (split_slash x) = true ->
  trailingSeparator x = false ->
  join [d; x] = (d ++ "/" ++ x)%string.
Proof.
  intros Hd Hx Ht. destruct (normalized_dir d Hd) as [Ha Hj].
  rewrite join_below by assumption. now rewrite Hj.
Qed.

(** X3.  With [__dirname] in normal form (absolute, plain segments, no
    trailing separator: what Node passes for a file outside the root
    directory) the configured paths are plain concatenations, in both
    revisions: [entry] is [__dirname + '/src/index.js'], [output.path] is
    [__dirname + '/dist'], and joining [output.path] and [output.filename]
    gives [__dirname + '/dist/index.bundle.js']. *)
Theorem paths_below_normalized_dirname (__dirname : string) (c : data) :
  normalized __dirname = true ->
  c = config_rules __dirname \/ c = config_loaders __dirname ->
  prop "entry" c = Some (Str (__dirname ++ "/src/index.js")) /\
  (exists output,
     prop "output" c = Some output /\
     prop "path" output = Some (Str (__dirname ++ "/dist")) /\
     prop "filename" output = Some (Str "index.bundle.js")) /\
  join [__dirname ++ "/dist"; "index.bundle.js"]
  = (__dirname ++ "/dist/index.bundle.js")%string.
Proof.
  intros Hd Hc.
  pose proof (join_normalized __dirname "src/index.js" Hd eq_refl eq_refl) as He.
  pose proof (join_normalized __dirname "dist" Hd eq_refl eq_refl) as Ho.
  pose proof (join_normalized (__dirname ++ "/dist") "index.bundle.js"
                (normalized_below __dirname "dist" Hd eq_refl)
                eq_refl eq_refl) as Hb.
  rewrite append_assoc in Hb.
  split; [| split; [| exact Hb]].
  - destruct Hc as [-> | ->]; cbn [prop assoc config_rules config_loaders String.eqb];
      simpl; now rewrite He.
  - destruct Hc as [-> | ->];
      (eexists; split; [reflexivity |]; split; [| reflexivity]);
      cbn; now rewrite Ho.
Qed.

Lemma paths_below_normalized_dirname_witness :
  normalized "/home/nick/app" = true /\
  prop "entry" (config_loaders "/home/nick/app")
  = Some (Str "/home/nick/app/src/index.js") /\
  join ["/home/nick/app/dist"; "index.bundle.js"]
  = "/home/nick/app/dist/index.bundle.js"%string.
Proof.
  split; [reflexivity |].
  destruct (paths_below_normalized_dirname "/home/nick/app"
              (config_loaders "/home/nick/app") eq_refl (or_intror eq_refl))
    as (He & _ & Hb).
  split; [exact He | exact Hb].
Defined.

(** X4.  Whatever the form of an absolute [__dirname] (a trailing
    separator, [.] or [..] segments, doubled separators), [entry] and
    [output.path] lie below one and the same directory: there is a [dir],
    empty for the root and absolute otherwise, with [entry] equal to
    [dir + '/src/index.js'] and [output.path] equal to [dir + '/dist']. *)
Theorem entry_and_output_share_directory (__dirname : string) (c : data) :
  isAbsolute __dirname = true ->
  c = config_rules __dirname \/ c = config_loaders __dirname ->
  exists dir entry output dist,
    prop "entry" c = Some (Str entry) /\
    prop "output" c = Some output /\
    prop "path" output = Some (Str dist) /\
    entry = (dir ++ "/src/index.js")%string /\
    dist = (dir ++ "/dist")%string /\
    (dir = ""%string \/ isAbsolute dir = true).
Proof.
  intros Hd Hc.
  exists (joined_dir __dirname), (join [__dirname; "src/index.js"]).
  destruct Hc as [-> | ->];
    (eexists; exists (join [__dirname; "dist"]);
     split; [reflexivity |]; split; [reflexivity |]; split; [reflexivity |];
     split; [now apply join_below |]; split; [now apply join_below |];
     unfold joined_dir; destruct (normalize_segments false __dirname);
     [now left | now right]).
Qed.

Lemma entry_and_output_share_directory_witness :
  isAbsolute "/home//nick/./app/" = true /\
  exists dir entry output dist,
    prop "entry" (config_rules "/home//nick/./app/") = Some (Str entry) /\
    prop "output" (config_rules "/home//nick/./app/") = Some output /\
    prop "path" output = Some (Str dist) /\
    entry = (dir ++ "/src/index.js")%string /\
    dist = (dir ++ "/dist")%string /\
    (dir = ""%string \/ isAbsolute dir = true).
Proof.
  split; [reflexivity |].
  exact (entry_and_output_share_directory "/home//nick/./app/"
           (config_rules "/home//nick/./app/") eq_refl (or_introl eq_refl)).
Defined.

End DirnameFacts.

(** ** The page as a greeter *)

Module GreeterFacts.
Import JS Dom Index Greeter IndexFacts.

(** A page keeps being wired as long as its listener lists stay. *)
Lemma wired_listeners (i : nat) (hs : option nat) (doc doc2 : document) :
  el_listeners <$> doc2 = el_listeners <$> doc ->
  wired i hs doc -> wired i hs doc2.
Proof.
  intros E [(el & Hel & Hl) Hrest].
  assert (L : forall j, el_listeners <$> doc2 !! j = el_listeners <$> doc !! j).
  { intros j. now rewrite <- !list_lookup_fmap, E. }
  split.
  - specialize (L i). rewrite Hel in L. simpl in L.
    destruct (doc2 !! i) as [el2|]; [| discriminate].
    exists el2. split; [reflexivity |]. injection L as ->. exact Hl.
  - intros j el2 Hj Hel2. specialize (L j). rewrite Hel2 in L. simpl in L.
    destruct (doc !! j) as [elj|] eqn:Ej; [| discriminate].
    injection L as ->. now apply (Hrest j elj).
Qed.

(** The script wires a page that had no listener. *)
Lemma index_js_wired (doc : document) (i : nat) :
  Forall (fun el => el_listeners el = []) doc ->
  querySelector (ByClass "js-add-hello") doc = Some i ->
  wired i (querySelector (ById "hellos") doc)
    (addEventListener i "keyup"
       (KeyupCallback i (querySelector (ById "hellos") doc)) doc).
Proof.
  intros Hfresh Hq.
  destruct (querySelector_Some _ _ _ Hq) as (el & Hel & _).
  unfold addEventListener. split.
  - rewrite list_lookup_alter_eq, Hel. simpl. eexists. split; [reflexivity |].
    simpl. rewrite Forall_lookup in Hfresh. now rewrite (Hfresh i el Hel).
  - intros j elj Hj. rewrite list_lookup_alter_ne by done.
    intros Helj. rewrite Forall_lookup in Hfresh. now apply (Hfresh j elj).
Qed.

Section Greeter.
Variable hello : value -> string.

(** On a wired page the only events that reach the callback are the [keyup]
    events at the input. *)
Lemma dispatch_wired (i : nat) (hs : option nat) (e : event) (doc : document) :
  wired i hs doc ->
  dispatch hello e doc
  = if Nat.eqb (ev_target e) i && String.eqb "keyup" (ev_type e)
    then default doc (on_keyup hello i hs e doc)
    else doc.
Proof.
  intros [(el & Hel & Hl) Hrest]. unfold dispatch.
  destruct (Nat.eqb_spec (ev_target e) i) as [->|Hne].
  - rewrite Hel, Hl. simpl. now destruct (String.eqb "keyup" (ev_type e)).
  - simpl. destruct (doc !! ev_target e) as [elj|] eqn:Ej; [| reflexivity].
    now rewrite (Hrest _ _ Hne Ej).
Qed.




(** Without the container, no event changes the page. *)
Lemma dispatch_without_container (i : nat) (e : event) (doc : document) :
  wired i None doc -> dispatch hello e doc = doc.
Proof.
  intros Hw. rewrite (dispatch_wired i None e doc Hw).
  destruct (Nat.eqb (ev_target e) i && String.eqb "keyup" (ev_type e));
    [| reflexivity].
  unfold on_keyup. now destruct (Z.eqb (ev_keyCode e) 13).
Qed.

Lemma run_without_container (i : nat) (trace : list action) (doc : document) :
  wired i None doc -> run hello doc trace = edits_only doc trace.
Proof.
  revert doc. induction trace as [|a trace IH]; intros doc Hw; [reflexivity |].
  unfold run, edits_only in *. cbn [fold_left].
  destruct a as [e | j new]; cbn [perform].
  - rewrite (dispatch_without_container i e doc Hw). now apply IH.
  - apply IH. apply (wired_listeners i None doc); [| exact Hw].
    unfold set_value. now apply fmap_alter_proj.
Qed.

Section Frame.
Context {B : Type} (proj : element -> B).
Hypothesis proj_frame : forall el v c l,
  proj (Element (el_tag el) (el_id el) (el_classes el) v c l) = proj el.




End Frame.

End Greeter.

Lemma matches_class (c : string) (el : element) :
  matches (ByClass c) el = true <-> In c (el_classes el).
Proof.
  simpl. rewrite existsb_exists. split.
  - intros (x & Hx & E). apply String.eqb_eq in E. now subst.
  - intros H. exists c. split; [exact H | apply String.eqb_refl].
Qed.

Lemma querySelector_from_None (sel : selector) (doc : list element) (n : nat) :
  querySelector_from n sel doc = None <->
  (forall el, In el doc -> matches sel el = false).
Proof.
  revert n. induction doc as [|x doc IH]; intros n; simpl.
  - split; [intros _ el [] | reflexivity].
  - destruct (matches sel x) eqn:Hm.
    + split; [discriminate |]. intros H.
      rewrite (H x (or_introl eq_refl)) in Hm. discriminate.
    + rewrite IH. split.
      * intros H el [<- | Hel]; [exact Hm | now apply H].
      * intros H el Hel. apply H. now right.
Qed.

Lemma querySelector_from_first (sel : selector) (doc : list element) (n i : nat) :
  querySelector_from n sel doc = Some i ->
  forall k el, (n + k < i)%nat -> doc !! k = Some el -> matches sel el = false.
Proof.
  revert n. induction doc as [|x doc IH]; intros n H k el Hk Hel; simpl in H.
  - discriminate.
  - destruct (matches sel x) eqn:Hm.
    + injection H as <-. lia.
    + destruct k as [|k]; simpl in Hel.
      * now injection Hel as <-.
      * apply (IH (S n) H k el); [lia | exact Hel].
Qed.







(** X7.  Without the container nothing happens.  On a page that has the
    input but no element of id [hellos], and no listener yet, the script
    still returns; afterwards no event changes the page, Enter included (the
    callback throws before its first change, so the input is not cleared
    either), and a session leaves the page as its edits alone would. *)
Theorem events_without_container (hello : value -> string) (doc : document)
    (i : nat) :
  Forall (fun el => el_listeners el = []) doc ->
  querySelector (ByClass "js-add-hello") doc = Some i ->
  querySelector (ById "hellos") doc = None ->
  exists doc',
    index_js doc = Some doc' /\
    (forall e, dispatch hello e doc' = doc') /\
    (forall trace, run hello doc' trace = edits_only doc' trace).
Proof.
  intros Hfresh Hqi Hqh. eexists.
  split; [exact (index_js_registers doc i Hqi) |].
  pose proof (index_js_wired doc i Hfresh Hqi) as Hw.
  rewrite Hqh in Hw at 1.
  split.
  - intros e. now apply (dispatch_without_container hello i).
  - intros trace. now apply (run_without_container hello i).
Qed.

Lemma events_without_container_witness :
  exists doc',
    index_js [Element "input" None ["Input"; "js-add-hello"] (VString "Nick") [] []]
    = Some doc' /\
    dispatch Hello.hello (Event "keyup" 13 0) doc' = doc'.
Proof.
  destruct (events_without_container Hello.hello
              [Element "input" None ["Input"; "js-add-hello"] (VString "Nick") [] []]
              0 ltac:(repeat constructor) eq_refl eq_refl)
    as (doc' & Hrun & He & _).
  exists doc'. split; [exact Hrun | apply He].
Defined.

(** X8.  The script needs the input.  It throws exactly on the pages none
    of whose elements has the class [js-add-hello]; on any other page it
    returns, and the element that gets the listener is the first one, in
    document order, that has the class. *)
Theorem script_needs_the_input (doc : document) :
  (index_js doc = None <->
   forall el, In el doc -> ~ In "js-add-hello" (el_classes el)) /\
  (forall doc', index_js doc = Some doc' ->
   exists i el,
     doc !! i = Some el /\
     In "js-add-hello" (el_classes el) /\
     (forall j el', (j < i)%nat -> doc !! j = Some el' ->
        ~ In "js-add-hello" (el_classes el')) /\
     doc' = addEventListener i "keyup"
              (KeyupCallback i (querySelector (ById "hellos") doc)) doc).
Proof.
  unfold index_js. split.
  - destruct (querySelector (ByClass "js-add-hello") doc) as [i|] eqn:Hq.
    + split; [discriminate |]. intros H.
      destruct (querySelector_Some _ _ _ Hq) as (el & Hel & Hm).
      apply matches_class in Hm. exfalso. apply (H el); [| exact Hm].
      apply list_elem_of_In. now apply (list_elem_of_lookup_2 doc i).
    + split; [| reflexivity]. intros _ el Hel Hc.
      apply matches_class in Hc.
      rewrite (proj1 (querySelector_from_None _ _ _) Hq el Hel) in Hc.
      discriminate.
  - intros doc' H.
    destruct (querySelector (ByClass "js-add-hello") doc) as [i|] eqn:Hq;
      [| discriminate].
    injection H as <-.
    destruct (querySelector_Some _ _ _ Hq) as (el & Hel & Hm).
    exists i, el. split; [exact Hel |].
    split; [now apply matches_class |]. split; [| reflexivity].
    intros j el' Hj Hel' Hc. apply matches_class in Hc.
    rewrite (querySelector_from_first _ _ _ _ Hq j el' ltac:(lia) Hel') in Hc.
    discriminate.
Qed.

Lemma script_needs_the_input_witness :
  index_js [Element "div" (Some "hellos") [] VUndefined [] []] = None.
Proof.
  apply (proj1 (script_needs_the_input
                  [Element "div" (Some "hellos") [] VUndefined [] []])).
  intros el [<- | []] [].
Defined.




End GreeterFacts.

(** ** More on the greeting function *)

Module HelloMore.
Import JS Hello.

#[local] Arguments String.append !_ _ /.





End HelloMore.

(** ** More worked examples *)

Example parse_test_pattern :
  Regex.parse "\.html$" = Some (Regex.Pattern ".html" true).
Proof. reflexivity. Qed.

Example parse_outside_fragment : Regex.parse "\.(png|jpg)$" = None.
Proof. reflexivity. Qed.

Example babel_skips_node_modules :
  Rules.loaders_under_rules "/home/nick/app"
    "/home/nick/app/node_modules/handlebars/runtime.js" = Some [].
Proof. reflexivity. Qed.

Example dirname_in_normal_form :
  Dirname.normalized "/home/nick/app" = true /\
  Dirname.normalized "/home/nick/app/" = false /\
  Dirname.normalized "/" = false.
Proof. repeat split; reflexivity. Qed.
